(** * chatpdf backend: session and connection orchestration

    A shallow embedding of [src/backend/main.py]: the upload handler
    [upload_pdf], the [WebSocketManager] and the [websocket_endpoint] loop,
    over an explicit program state (the [sessions] dictionary, the manager's
    [active_connections] dictionary, the files on disk and the calls made on
    websocket objects).

    The PDF loader, the text splitter, the vector index, the language model
    and the websocket transport are external: each call into them is given
    an outcome (a returned value, or a raised exception with its message)
    by the caller of the model, so every theorem quantifies over whatever
    these services do.  Each handler body is run from start to end on the
    shared state; calls to [print] are left out. *)

From stdpp Require Import gmap strings list fin_maps.

(** ** Python values the handlers pass around *)

(** An exception object: its class, as far as the [except] clauses of the
    source tell classes apart, and the text [str(e)] gives for it. *)
Inductive exn : Type :=
| WebSocketDisconnect (text : string)
| Exception (text : string).

Definition str (e : exn) : string :=
  match e with
  | WebSocketDisconnect text => text
  | Exception text => text
  end.

(** What a call into an external service does. *)
Inductive outcome (A : Type) : Type :=
| Returns (a : A)
| Raises (e : exn).
Arguments Returns {A} a.
Arguments Raises {A} e.

(** Handles on objects built by the libraries; the code only stores them
    and passes them on. *)
Inductive Documents : Type := Docs (id : nat).
Inductive Texts : Type := Chunks (id : nat).
Inductive VectorStore : Type := FAISS (id : nat).
Inductive ConversationChain : Type := Chain (id : nat).

(** A websocket object, by identity. *)
Definition WebSocket : Type := nat.

Inductive Role : Type := user | ai.

(** One element of a session's ["chat_history"] list:
    [{"role": ..., "content": ...}]. *)
Record Turn : Type := mkTurn { role : Role; content : string }.

(** A value of the [sessions] dictionary.  The key ["document_summary"] is
    absent until the summary has been generated, hence the option. *)
Record Session : Type := mkSession {
  doc_path : string;
  vectorstore : VectorStore;
  conversation_chain : ConversationChain;
  chat_history : list Turn;
  summary_generated : bool;
  document_summary : option string
}.

(** Item assignment on a session dictionary: [session[key] = value]. *)
Definition set_document_summary (text : string) (s : Session) : Session :=
  {| doc_path := doc_path s;
     vectorstore := vectorstore s;
     conversation_chain := conversation_chain s;
     chat_history := chat_history s;
     summary_generated := summary_generated s;
     document_summary := Some text |}.

Definition set_summary_generated (b : bool) (s : Session) : Session :=
  {| doc_path := doc_path s;
     vectorstore := vectorstore s;
     conversation_chain := conversation_chain s;
     chat_history := chat_history s;
     summary_generated := b;
     document_summary := document_summary s |}.

(** [session["chat_history"].append(turn)] *)
Definition append_turn (turn : Turn) (s : Session) : Session :=
  {| doc_path := doc_path s;
     vectorstore := vectorstore s;
     conversation_chain := conversation_chain s;
     chat_history := chat_history s ++ [turn];
     summary_generated := summary_generated s;
     document_summary := document_summary s |}.

(** A call made on a websocket object. *)
Inductive Call : Type :=
| CallAccept (ws : WebSocket)
| CallSendText (ws : WebSocket) (message : string)
| CallClose (ws : WebSocket).

(** ** Program state *)

Record State : Type := mkState {
  sessions : gmap string Session;           (* the module-level [sessions] *)
  active_connections : gmap string WebSocket; (* [manager.active_connections] *)
  files : gmap string string;               (* path -> content, on disk *)
  calls : list Call                         (* calls on websockets, oldest first *)
}.

Definition set_sessions (f : gmap string Session → gmap string Session)
    (st : State) : State :=
  {| sessions := f (sessions st);
     active_connections := active_connections st;
     files := files st;
     calls := calls st |}.

Definition set_active_connections
    (f : gmap string WebSocket → gmap string WebSocket) (st : State) : State :=
  {| sessions := sessions st;
     active_connections := f (active_connections st);
     files := files st;
     calls := calls st |}.

Definition set_files (f : gmap string string → gmap string string)
    (st : State) : State :=
  {| sessions := sessions st;
     active_connections := active_connections st;
     files := f (files st);
     calls := calls st |}.

Definition log_call (c : Call) (st : State) : State :=
  {| sessions := sessions st;
     active_connections := active_connections st;
     files := files st;
     calls := calls st ++ [c] |}.

(** ** Statements that may raise, on the shared state *)

Inductive result (A : Type) : Type :=
| Ok (a : A)
| Raise (e : exn).
Arguments Ok {A} a.
Arguments Raise {A} e.

Definition M (A : Type) : Type := State → result A * State.

Global Instance M_ret : MRet M := λ A a st, (Ok a, st).

Global Instance M_bind : MBind M := λ A B k m st,
  match m st with
  | (Ok a, st') => k a st'
  | (Raise e, st') => (Raise e, st')
  end.

Definition get : M State := λ st, (Ok st, st).
Definition modify (f : State → State) : M unit := λ st, (Ok tt, f st).
Definition raise {A : Type} (e : exn) : M A := λ st, (Raise e, st).

(** [try: body except Exception as e: handler e]; every exception object of
    the model is an instance of Python's [Exception]. *)
Definition try_except {A : Type} (body : M A) (handler : exn → M A) : M A :=
  λ st,
    match body st with
    | (Ok a, st') => (Ok a, st')
    | (Raise e, st') => handler e st'
    end.

(** A call into an external service: no effect on the state of the model. *)
Definition external {A : Type} (o : outcome A) : M A :=
  match o with
  | Returns a => mret a
  | Raises e => raise e
  end.

(** ** Strings *)

(** [s.endswith(suffix)] *)
Definition endswith (s suffix : string) : bool :=
  let n := String.length s in
  let k := String.length suffix in
  (k <=? n) && String.eqb (String.substring (n - k) k s) suffix.

Definition startswith (s prefix : string) : bool :=
  String.eqb (String.substring 0 (String.length prefix) s) prefix.

(** [os.path.join(a, b)] on POSIX paths. *)
Definition path_join (a b : string) : string :=
  if startswith b "/" then b
  else if String.eqb a "" || endswith a "/" then a +:+ b
  else a +:+ "/" +:+ b.

Definition UPLOAD_DIR : string := "uploads".

(** ** The upload handler's request and response *)

(** The [UploadFile] of a request: its name and the bytes of its stream. *)
Record UploadFile : Type := mkUploadFile {
  filename : string;
  file_bytes : string
}.

(** What [upload_pdf] hands back to the framework: the [JSONResponse] it
    returns, or the [HTTPException] it raises. *)
Inductive Response : Type :=
| JSONResponse (status_code : nat) (message session_id : string)
| HTTPException (status_code : nat) (detail : string).

(** What the services called by one run of [upload_pdf] do, in the order of
    the calls.  [copyfileobj] may stop after writing part of the stream. *)
Record UploadRun : Type := mkUploadRun {
  uuid4 : string;
  open_wb : outcome unit;                 (* open(file_location, "wb") *)
  copyfileobj : outcome unit;             (* shutil.copyfileobj *)
  copied : string;                        (* what reached the disk if it raised *)
  load : outcome Documents;               (* PyPDFLoader(..).load() *)
  split_documents : outcome Texts;        (* text_splitter.split_documents *)
  from_documents : outcome VectorStore;   (* Ollama, OllamaEmbeddings, FAISS.from_documents *)
  from_llm : outcome ConversationChain;   (* ConversationBufferMemory, from_llm *)
  summary_ainvoke : outcome string        (* load_summarize_chain, ainvoke, ["output_text"] *)
}.

(** [with open(file_location, "wb") as buffer: shutil.copyfileobj(file.file, buffer)]:
    opening creates or truncates the file; the copy then fills it. *)
Definition write_upload (file_location : string) (file : UploadFile)
    (run : UploadRun) : M unit :=
  external (open_wb run);;
  modify (set_files (<[file_location := ""]>));;
  match copyfileobj run with
  | Returns _ => modify (set_files (<[file_location := file_bytes file]>))
  | Raises e =>
      modify (set_files (<[file_location := copied run]>));;
      raise e
  end.

(** The body of the [try] block of [upload_pdf] (lines 57-103). *)
Definition upload_try (session_id : string) (file : UploadFile)
    (run : UploadRun) (file_location : string) : M Response :=
  write_upload file_location file run;;
  documents ← external (load run);
  texts ← external (split_documents run);
  index ← external (from_documents run);
  chain ← external (from_llm run);
  modify (set_sessions (<[session_id :=
    {| doc_path := file_location;
       vectorstore := index;
       conversation_chain := chain;
       chat_history := [];
       summary_generated := false;
       document_summary := None |}]>));;
  summary ← external (summary_ainvoke run);
  modify (set_sessions (alter (set_document_summary summary) session_id));;
  modify (set_sessions (alter (set_summary_generated true) session_id));;
  mret (JSONResponse 200 "PDF uploaded and processed successfully!" session_id).

(** [os.path.join(UPLOAD_DIR, f"{session_id}_{uuid.uuid4()}.pdf")] *)
Definition upload_location (session_id : string) (run : UploadRun) : string :=
  path_join UPLOAD_DIR (session_id +:+ "_" +:+ uuid4 run +:+ ".pdf").

(** [upload_pdf(session_id, file)] *)
Definition upload_pdf (session_id : string) (file : UploadFile)
    (run : UploadRun) (st : State) : Response * State :=
  if negb (endswith (filename file) ".pdf") then
    (HTTPException 400 "Invalid file type. Only PDF files are allowed.", st)
  else
    let file_location := upload_location session_id run in
    match upload_try session_id file run file_location st with
    | (Ok response, st') => (response, st')
    | (Raise e, st') =>
        let st'' :=
          match files st' !! file_location with
          | Some _ => set_files (delete file_location) st'
          | None => st'
          end in
        (HTTPException 500 ("Error processing PDF: " +:+ str e), st'')
    end.

(** ** WebSocketManager and the websocket endpoint *)

Definition GREETING : string :=
  "Hello! I've processed your PDF. Here is a summary:".

Definition NO_DOCUMENT : string :=
  "Error: No document uploaded for this session. Please upload a PDF first.".

(** What the client of one connection does next, as the handler sees it at
    [await websocket.receive_text()]: a text frame arrives (and, should the
    handler then call the session's conversation chain on it, the chain
    gives [reply], holding [response["answer"]]), or the call raises. *)
Inductive Inbound : Type :=
| Frame (data : string) (reply : outcome string)
| Broken (e : exn).

(** The handler of one connection either is suspended in [receive_text]
    or has returned. *)
Inductive HandlerStatus : Type := Suspended | Returned.

Section Endpoint.

(** The transport: what [accept()] and [send_text(message)] do on a given
    websocket ([None]: the call returns). *)
Variable accept_result : WebSocket → option exn.
Variable send_text_result : WebSocket → string → option exn.

Definition accept (websocket : WebSocket) : M unit :=
  modify (log_call (CallAccept websocket));;
  match accept_result websocket with
  | None => mret tt
  | Some e => raise e
  end.

Definition send_text (websocket : WebSocket) (message : string) : M unit :=
  modify (log_call (CallSendText websocket message));;
  match send_text_result websocket message with
  | None => mret tt
  | Some e => raise e
  end.

(** [WebSocketManager.send_personal_message] *)
Definition send_personal_message (message session_id : string) : M unit :=
  st ← get;
  match active_connections st !! session_id with
  | Some websocket => send_text websocket message
  | None => mret tt
  end.

(** [WebSocketManager.connect]; the summary is the value under the key
    ["document_summary"] of [sessions[session_id]], when both keys are
    there. *)
Definition connect (websocket : WebSocket) (session_id : string) : M unit :=
  accept websocket;;
  modify (set_active_connections (<[session_id := websocket]>));;
  st ← get;
  match sessions st !! session_id ≫= document_summary with
  | Some summary =>
      send_personal_message GREETING session_id;;
      send_personal_message summary session_id
  | None => mret tt
  end.

(** [WebSocketManager.disconnect] *)
Definition disconnect (session_id : string) : M unit :=
  st ← get;
  match active_connections st !! session_id with
  | Some _ => modify (set_active_connections (delete session_id))
  | None => mret tt
  end.

(** One turn of the [while True] loop of [websocket_endpoint], from the
    received text on (lines 147-169). *)
Definition process_message (session_id data : string)
    (reply : outcome string) : M unit :=
  st ← get;
  match sessions st !! session_id with
  | None => send_personal_message NO_DOCUMENT session_id
  | Some session_data =>
      modify (set_sessions
        (alter (append_turn {| role := user; content := data |}) session_id));;
      ai_answer ← try_except (external reply)
        (λ e, mret ("Error getting AI response: " +:+ str e
                      +:+ ". Please try again."));
      modify (set_sessions
        (alter (append_turn {| role := ai; content := ai_answer |}) session_id));;
      send_personal_message ai_answer session_id
  end.

(** The [while True] loop, run on what the client does; when the client
    has done nothing more, the handler stays in [receive_text]. *)
Fixpoint receive_loop (session_id : string) (inbound : list Inbound)
    : M HandlerStatus :=
  match inbound with
  | [] => mret Suspended
  | Broken e :: _ => raise e
  | Frame data reply :: rest =>
      process_message session_id data reply;;
      receive_loop session_id rest
  end.

(** The [try] statement of [websocket_endpoint] with its two [except]
    clauses (lines 142-175). *)
Definition serve (session_id : string) (inbound : list Inbound)
    : M HandlerStatus :=
  λ st,
    match receive_loop session_id inbound st with
    | (Ok status, st') => (Ok status, st')
    | (Raise (WebSocketDisconnect _), st') =>
        (disconnect session_id;; mret Returned) st'
    | (Raise (Exception text), st') =>
        (send_personal_message
           ("An unexpected error occurred: " +:+ text) session_id;;
         mret Returned) st'
    end.

(** [websocket_endpoint(websocket, session_id)] *)
Definition websocket_endpoint (websocket : WebSocket) (session_id : string)
    (inbound : list Inbound) : M HandlerStatus :=
  connect websocket session_id;;
  serve session_id inbound.

(** [WebSocketManager.broadcast]: [send_text] on every value of
    [active_connections], one after the other; the first call that raises
    ends the loop.  The entries are taken in the order the map lists them
    (Python: the order of insertion), so what is proved of [broadcast] does
    not depend on that order. *)
Fixpoint send_each (connections : list WebSocket) (message : string) : M unit :=
  match connections with
  | [] => mret tt
  | connection :: rest =>
      send_text connection message;;
      send_each rest message
  end.

Definition broadcast (message : string) : M unit :=
  st ← get;
  send_each (map_to_list (active_connections st)).*2 message.

End Endpoint.

(** ** Sequences of manager operations *)

Inductive ManagerOp : Type :=
| OpConnect (websocket : WebSocket) (session_id : string)
| OpDisconnect (session_id : string).

Section Operations.

Variable accept_result : WebSocket → option exn.
Variable send_text_result : WebSocket → string → option exn.

Definition run_op (op : ManagerOp) : M unit :=
  match op with
  | OpConnect websocket session_id =>
      connect accept_result send_text_result websocket session_id
  | OpDisconnect session_id => disconnect session_id
  end.

(** Each operation is a call of its own: one that raises does not stop
    the operations that come after it. *)
Fixpoint run_ops (ops : list ManagerOp) (st : State) : State :=
  match ops with
  | [] => st
  | op :: rest => run_ops rest (run_op op st).2
  end.

End Operations.

(** The connections the registry holds for a session identifier. *)
Definition registered_connections (st : State) (session_id : string)
    : list WebSocket :=
  (filter (λ kv, kv.1 = session_id) (map_to_list (active_connections st))).*2.

(** The value of [ai_answer] after the inner [try] statement of the loop
    (lines 161-165). *)
Definition ai_answer (reply : outcome string) : string :=
  match reply with
  | Returns answer => answer
  | Raises e => "Error getting AI response: " +:+ str e +:+ ". Please try again."
  end.

(** The two dictionaries one question appends to ["chat_history"]
    (lines 159 and 167). *)
Definition exchange (question : string * outcome string) : list Turn :=
  [ {| role := user; content := question.1 |};
    {| role := ai; content := ai_answer question.2 |} ].

(** The client sends these questions and then nothing more. *)
Definition frames (questions : list (string * outcome string)) : list Inbound :=
  (λ question, Frame question.1 question.2) <$> questions.

(** ** Concrete states and runs used to exercise the theorems *)

Definition empty_state : State :=
  {| sessions := ∅; active_connections := ∅; files := ∅; calls := [] |}.

Definition doc_pdf : UploadFile :=
  {| filename := "doc.pdf"; file_bytes := "%PDF-1.4" |}.

Definition notes_txt : UploadFile :=
  {| filename := "notes.txt"; file_bytes := "hello" |}.

(** Every service does its work; the summary is [summary]. *)
Definition run_with_summary (summary : outcome string) : UploadRun :=
  {| uuid4 := "0b5e";
     open_wb := Returns tt;
     copyfileobj := Returns tt;
     copied := "";
     load := Returns (Docs 1);
     split_documents := Returns (Chunks 1);
     from_documents := Returns (FAISS 1);
     from_llm := Returns (Chain 1);
     summary_ainvoke := summary |}.

Definition always_accepts (_ : WebSocket) : option exn := None.
Definition always_sends (_ : WebSocket) (_ : string) : option exn := None.

(** The state after [doc.pdf] was uploaded for session ["abc"]. *)
Definition uploaded_state : State :=
  (upload_pdf "abc" doc_pdf (run_with_summary (Returns "A short text.")) empty_state).2.

(** ... and after websocket 7 connected for it. *)
Definition connected_state : State :=
  (connect always_accepts always_sends 7 "abc" uploaded_state).2.

(** The entry that upload leaves under ["abc"]. *)
Definition abc_session : Session :=
  {| doc_path := "uploads/abc_0b5e.pdf";
     vectorstore := FAISS 1;
     conversation_chain := Chain 1;
     chat_history := [];
     summary_generated := true;
     document_summary := Some "A short text." |}.

(** Websocket 7 connected for ["abc"] with nothing uploaded. *)
Definition connected_without_upload : State :=
  (connect always_accepts always_sends 7 "abc" empty_state).2.

(** A transport on which every [send_text] raises. *)
Definition never_sends (_ : WebSocket) (_ : string) : option exn :=
  Some (Exception "connection lost").

Definition never_accepts (_ : WebSocket) : option exn :=
  Some (Exception "handshake failed").

(** A transport on which one text cannot be sent. *)
Definition fails_on (bad : string) (_ : WebSocket) (message : string)
    : option exn :=
  if String.eqb message bad then Some (Exception "broken pipe") else None.

(** A run in which the PDF cannot be parsed. *)
Definition run_load_fails : UploadRun :=
  {| uuid4 := "0b5e";
     open_wb := Returns tt;
     copyfileobj := Returns tt;
     copied := "";
     load := Raises (Exception "not a PDF");
     split_documents := Returns (Chunks 1);
     from_documents := Returns (FAISS 1);
     from_llm := Returns (Chain 1);
     summary_ainvoke := Returns "unused" |}.

(** Two questions, the second of which the chain fails to answer. *)
Definition two_questions : list (string * outcome string) :=
  [ ("What is this about?", Returns "It is about maps.");
    ("And then?", Raises (Exception "timeout")) ].

(** * Properties *)

Ltac run :=
  unfold mbind, M_bind, mret, M_ret, get, modify, raise, external, try_except
    in *; simpl in *.

(** ** [endswith] *)

Lemma substring_all (s : string) : String.substring 0 (String.length s) s = s.
Proof. induction s as [|c s IH]; simpl; [done | by rewrite IH]. Qed.

Lemma substring_skip (p s : string) (k : nat) :
  String.substring (String.length p) k (p +:+ s) = String.substring 0 k s.
Proof. induction p as [|c p IH]; simpl; [done | apply IH]. Qed.

Lemma substring_split (s : string) (i : nat) :
  i ≤ String.length s →
  s = String.substring 0 i s +:+ String.substring i (String.length s - i) s.
Proof.
  revert i. induction s as [|c s IH]; intros [|i] Hi; simpl in *.
  - done.
  - lia.
  - by rewrite substring_all.
  - change (String c s = String c (String.substring 0 i s +:+
      String.substring i (String.length s - i) s)).
    f_equal. apply IH. lia.
Qed.

Lemma length_append (p s : string) :
  String.length (p +:+ s) = String.length p + String.length s.
Proof. induction p as [|c p IH]; simpl; [done | by rewrite IH]. Qed.

(** [endswith s suffix] holds exactly when [s] is some text followed by
    [suffix]. *)
Lemma endswith_spec (s suffix : string) :
  endswith s suffix = true ↔ ∃ p, s = p +:+ suffix.
Proof.
  unfold endswith. rewrite andb_true_iff, Nat.leb_le, String.eqb_eq. split.
  - intros [Hle Hsub].
    exists (String.substring 0 (String.length s - String.length suffix) s).
    pose proof (substring_split s (String.length s - String.length suffix))
      as Hsplit.
    replace (String.length s - (String.length s - String.length suffix))
      with (String.length suffix) in Hsplit by lia.
    rewrite Hsub in Hsplit. apply Hsplit. lia.
  - intros [p ->]. rewrite length_append. split; [lia |].
    replace (String.length p + String.length suffix - String.length suffix)
      with (String.length p) by lia.
    rewrite substring_skip. apply substring_all.
Qed.

(** ** The upload handler *)

Ltac step_outcomes :=
  repeat match goal with
  | |- context [match ?o with Returns _ => _ | Raises _ => _ end] =>
      destruct o eqn:?; simpl
  | H : context [match ?o with Returns _ => _ | Raises _ => _ end] |- _ =>
      destruct o eqn:?; simpl in H
  end.

(** X4: whatever step raises, the [except] clause leaves no file at the
    upload's location. *)
Lemma upload_pdf_failure_removes_file session_id file run st detail st' :
  upload_pdf session_id file run st = (HTTPException 500 detail, st') →
  files st' !! upload_location session_id run = None.
Proof.
  unfold upload_pdf.
  destruct (endswith (filename file) ".pdf"); simpl; [| intros [=]].
  destruct (upload_try _ _ _ _ st) as [[response|e] st1] eqn:Htry.
  - unfold upload_try, write_upload in Htry. run.
    step_outcomes; try discriminate Htry.
    injection Htry as <- <-. intros [=].
  - intros [= _ <-].
    destruct (files st1 !! _) eqn:Hfile; [| done].
    simpl. apply lookup_delete_eq.
Qed.

(** X5: a step that raises before the session is assigned (writing the
    file, loading, splitting, building the index or the conversation chain)
    leaves [sessions] as it was: an earlier session under the same
    identifier survives the failed upload. *)
Lemma upload_pdf_early_failure_keeps_sessions session_id file run st e :
  open_wb run = Raises e ∨ copyfileobj run = Raises e ∨ load run = Raises e ∨
  split_documents run = Raises e ∨ from_documents run = Raises e ∨
  from_llm run = Raises e →
  sessions (upload_pdf session_id file run st).2 = sessions st.
Proof.
  intros Hraise. unfold upload_pdf.
  destruct (endswith (filename file) ".pdf"); simpl; [| done].
  unfold upload_try, write_upload. run.
  step_outcomes;
    repeat match goal with
    | |- context [match ?o with Some _ => _ | None => _ end] =>
        destruct o; simpl
    end;
    try done;
    exfalso; destruct Hraise as [H|[H|[H|[H|[H|H]]]]]; congruence.
Qed.

(** C1: when a file named [*.pdf] is uploaded and every step works up to
    the summary, whose generation raises [e], the handler answers with the
    500 [HTTPException] carrying [str(e)] and has deleted the uploaded file,
    but the entry it assigned to [sessions[session_id]] before asking for the
    summary is still in the Session Store (with its [doc_path] naming the
    deleted file, no summary and [summary_generated] false): the request has
    registered a session although it failed. *)
Theorem upload_pdf_summary_failure_keeps_session
    session_id file run st docs texts index chain e :
  endswith (filename file) ".pdf" = true →
  open_wb run = Returns tt →
  copyfileobj run = Returns tt →
  load run = Returns docs →
  split_documents run = Returns texts →
  from_documents run = Returns index →
  from_llm run = Returns chain →
  summary_ainvoke run = Raises e →
  let outcome := upload_pdf session_id file run st in
  outcome.1 = HTTPException 500 ("Error processing PDF: " +:+ str e) ∧
  files outcome.2 !! upload_location session_id run = None ∧
  sessions outcome.2 !! session_id =
    Some {| doc_path := upload_location session_id run;
            vectorstore := index;
            conversation_chain := chain;
            chat_history := [];
            summary_generated := false;
            document_summary := None |}.
Proof.
  intros Hpdf Hopen Hcopy Hload Hsplit Hindex Hchain Hsummary.
  unfold upload_pdf. rewrite Hpdf. simpl.
  unfold upload_try, write_upload. run.
  rewrite Hopen, Hcopy, Hload, Hsplit, Hindex, Hchain, Hsummary. simpl.
  rewrite lookup_insert_eq. simpl.
  split; [done |]. split; [apply lookup_delete_eq | apply lookup_insert_eq].
Qed.

(** C4: a file whose name does not end in [.pdf] is refused with the 400
    [HTTPException] and the state is the one the handler started in: nothing
    was written to disk and [sessions] was neither extended nor changed. *)
Theorem upload_pdf_rejects_other_extensions session_id file run st :
  endswith (filename file) ".pdf" = false →
  upload_pdf session_id file run st =
    (HTTPException 400 "Invalid file type. Only PDF files are allowed.", st).
Proof. intros Hext. unfold upload_pdf. by rewrite Hext. Qed.

(** C5 (amended): an upload for [session_id] that returns the success
    response returns it with status 200 and that same identifier, and leaves
    under [session_id] an entry with an empty [chat_history], with
    [summary_generated] set, and whose summary is the text the summary chain
    returned, whatever that text is (the empty string included). *)
Theorem upload_pdf_success_registers
    session_id file run st status message sid st' :
  upload_pdf session_id file run st = (JSONResponse status message sid, st') →
  status = 200 ∧ sid = session_id ∧
  ∃ s summary,
    summary_ainvoke run = Returns summary ∧
    sessions st' !! session_id = Some s ∧
    chat_history s = [] ∧
    summary_generated s = true ∧
    document_summary s = Some summary.
Proof.
  unfold upload_pdf.
  destruct (endswith (filename file) ".pdf"); simpl; [| intros [=]].
  unfold upload_try, write_upload. run.
  step_outcomes; try (intros [=]; fail).
  intros [= <- <- <- <-]. do 2 (split; [done |]).
  eexists _, _. split; [done |]. simpl.
  rewrite !lookup_alter_eq, lookup_insert_eq. simpl. done.
Qed.

(** ** The connection manager *)

Ltac no_close_call :=
  let closed := fresh "closed" in
  let Hin := fresh "Hin" in
  intros closed Hin; apply list_elem_of_In in Hin; simpl in Hin;
  intuition discriminate.

Lemma registered_connections_lookup (st : State) (session_id : string) :
  registered_connections st session_id =
    option_list (active_connections st !! session_id).
Proof.
  unfold registered_connections.
  set (m := active_connections st).
  set (l := filter (λ kv : string * WebSocket, kv.1 = session_id) (map_to_list m)).
  assert (Hnodup : NoDup l) by apply NoDup_filter, NoDup_map_to_list.
  assert (Hin : ∀ k w, (k, w) ∈ l ↔ k = session_id ∧ m !! k = Some w).
  { intros k w. unfold l. rewrite list_elem_of_filter, elem_of_map_to_list.
    done. }
  destruct (m !! session_id) as [w|] eqn:Hm; simpl.
  - assert (Hperm : l ≡ₚ [(session_id, w)]).
    { apply NoDup_Permutation; [done | apply NoDup_singleton |].
      intros [k w']. rewrite Hin, list_elem_of_singleton. split.
      - intros [-> Hk]. congruence.
      - intros [= -> ->]. done. }
    apply Permutation_singleton_r in Hperm. by rewrite Hperm.
  - destruct l as [|[k w] l']; [done |].
    destruct (proj1 (Hin k w)) as [-> Hk]; [left | congruence].
Qed.

Section EndpointProperties.

Variable accept_result : WebSocket → option exn.
Variable send_text_result : WebSocket → string → option exn.

(** [send_personal_message] touches nothing but the log of calls. *)
Lemma send_personal_message_frame message session_id st :
  let st' := (send_personal_message send_text_result message session_id st).2 in
  sessions st' = sessions st ∧
  active_connections st' = active_connections st ∧
  files st' = files st ∧
  calls st' = calls st ++
    match active_connections st !! session_id with
    | Some websocket => [CallSendText websocket message]
    | None => []
    end.
Proof.
  unfold send_personal_message, send_text. run.
  destruct (active_connections st !! session_id) as [websocket|]; simpl.
  - destruct (send_text_result websocket message); simpl; done.
  - by rewrite app_nil_r.
Qed.

(** C6: when the transport of [websocket] works, [connect] accepts it and
    then, if [sessions[session_id]] holds a summary, sends exactly two
    texts on it, the greeting and then the stored summary as it is; if no
    summary is stored for [session_id], it sends no text at all. *)
Theorem connect_automatic_messages websocket session_id st :
  accept_result websocket = None →
  (∀ message, send_text_result websocket message = None) →
  (connect accept_result send_text_result websocket session_id st).1 = Ok tt ∧
  calls (connect accept_result send_text_result websocket session_id st).2 =
    calls st ++ CallAccept websocket ::
      match sessions st !! session_id ≫= document_summary with
      | Some summary =>
          [CallSendText websocket GREETING; CallSendText websocket summary]
      | None => []
      end.
Proof.
  intros Haccept Hsend. unfold connect, accept, send_personal_message, send_text.
  run. rewrite Haccept. simpl.
  destruct (option_bind _ _ _ _) as [summary|]; simpl; [| done].
  rewrite !lookup_insert_eq. simpl. rewrite !Hsend. simpl.
  rewrite lookup_insert_eq. simpl. rewrite !Hsend. simpl.
  by rewrite <- !app_assoc.
Qed.

(** C8: however connects and disconnects follow one another, the registry
    holds at most one connection for a session identifier after each of
    them; a [connect] whose [accept] returns makes the new websocket the
    one registered for its identifier, whatever was registered before, and
    makes no [close] call on any websocket. *)
Theorem registry_one_connection_per_session ops st n session_id :
  length (registered_connections
            (run_ops accept_result send_text_result (take n ops) st)
            session_id) ≤ 1 ∧
  ∀ websocket st0,
    let st1 :=
      (connect accept_result send_text_result websocket session_id st0).2 in
    registered_connections st1 session_id =
      match accept_result websocket with
      | None => [websocket]
      | Some _ => registered_connections st0 session_id
      end ∧
    ∃ made, calls st1 = calls st0 ++ made ∧
            ∀ closed, CallClose closed ∉ made.
Proof.
  split.
  - rewrite registered_connections_lookup.
    destruct (active_connections _ !! session_id); simpl; lia.
  - intros websocket st0. simpl. rewrite !registered_connections_lookup.
    unfold connect, accept, send_personal_message, send_text.
    run. destruct (accept_result websocket) as [e|]; simpl.
    { split; [done |]. exists [CallAccept websocket].
      split; [done | no_close_call]. }
    destruct (option_bind _ _ _ _) as [summary|]; simpl;
      rewrite ?lookup_insert_eq; simpl.
    + destruct (send_text_result websocket GREETING); simpl;
        rewrite ?lookup_insert_eq; simpl.
      * split; [done |].
        exists [CallAccept websocket; CallSendText websocket GREETING].
        split; [by rewrite <- app_assoc | no_close_call].
      * destruct (send_text_result websocket summary); simpl;
          rewrite lookup_insert_eq; (split; [done |]);
          exists [CallAccept websocket; CallSendText websocket GREETING;
                  CallSendText websocket summary];
          (split; [by rewrite <- !app_assoc | no_close_call]).
    + split; [done |]. exists [CallAccept websocket].
      split; [done | no_close_call].
Qed.

(** C9: [disconnect] cannot raise; it removes the identifier from the
    registry when it is there and leaves the whole state as it is when it
    is not; and afterwards [send_personal_message] for that identifier
    returns normally without making any call on any websocket. *)
Theorem disconnect_then_send_is_silent session_id message st :
  let st' := (disconnect session_id st).2 in
  (disconnect session_id st).1 = Ok tt ∧
  active_connections st' = delete session_id (active_connections st) ∧
  active_connections st' !! session_id = None ∧
  sessions st' = sessions st ∧ files st' = files st ∧ calls st' = calls st ∧
  (active_connections st !! session_id = None → st' = st) ∧
  send_personal_message send_text_result message session_id st' = (Ok tt, st').
Proof.
  unfold disconnect, send_personal_message. run.
  destruct (active_connections st !! session_id) as [websocket|] eqn:Hreg;
    simpl.
  - rewrite lookup_delete_eq. done.
  - rewrite Hreg. rewrite delete_id by done. done.
Qed.

(** The answer the endpoint appends and sends for a question: what the
    chain returned, or the text built from the exception it raised. *)
Lemma process_message_registered session_id data reply st s :
  sessions st !! session_id = Some s →
  process_message send_text_result session_id data reply st =
    send_personal_message send_text_result
      match reply with
      | Returns answer => answer
      | Raises e =>
          "Error getting AI response: " +:+ str e +:+ ". Please try again."
      end
      session_id
      (set_sessions
         (<[session_id :=
              append_turn
                {| role := ai;
                   content :=
                     match reply with
                     | Returns answer => answer
                     | Raises e =>
                         "Error getting AI response: " +:+ str e
                           +:+ ". Please try again."
                     end |}
                (append_turn {| role := user; content := data |} s)]>)
         st).
Proof.
  intros Hs. unfold process_message. run. rewrite Hs.
  assert (Halter : ∀ answer,
    alter (append_turn {| role := ai; content := answer |}) session_id
      (alter (append_turn {| role := user; content := data |}) session_id
         (sessions st)) =
    <[session_id :=
        append_turn {| role := ai; content := answer |}
          (append_turn {| role := user; content := data |} s)]>
      (sessions st)).
  { intros answer. apply map_eq. intros k.
    destruct (decide (k = session_id)) as [->|Hne].
    - by rewrite !lookup_alter_eq, Hs, lookup_insert_eq.
    - by rewrite !lookup_alter_ne, lookup_insert_ne. }
  destruct reply as [answer|e]; simpl; unfold set_sessions; simpl;
    by rewrite Halter.
Qed.

(** C2: for a session that is in [sessions], one question [data] adds to
    its [chat_history] exactly the user turn holding [data] and then the ai
    turn holding the answer, the answer being the chain's when it returns
    and ["Error getting AI response: " + str(e) + ". Please try again."]
    when it raises [e]; with the session's connection registered and its
    transport working, that same answer is the one text sent on it and
    the loop goes on to the next message. *)
Theorem process_message_appends_two_turns
    session_id data reply st s websocket rest :
  sessions st !! session_id = Some s →
  active_connections st !! session_id = Some websocket →
  (∀ message, send_text_result websocket message = None) →
  let answer :=
    match reply with
    | Returns text => text
    | Raises e =>
        "Error getting AI response: " +:+ str e +:+ ". Please try again."
    end in
  let st' := (process_message send_text_result session_id data reply st).2 in
  (process_message send_text_result session_id data reply st).1 = Ok tt ∧
  (∃ s', sessions st' !! session_id = Some s' ∧
         chat_history s' =
           chat_history s ++ [ {| role := user; content := data |};
                               {| role := ai; content := answer |} ]) ∧
  calls st' = calls st ++ [CallSendText websocket answer] ∧
  receive_loop send_text_result session_id (Frame data reply :: rest) st =
    receive_loop send_text_result session_id rest st'.
Proof.
  intros Hs Hreg Hsend answer st'.
  assert (Hrun :
    process_message send_text_result session_id data reply st = (Ok tt, st')).
  { unfold st'. rewrite (process_message_registered _ _ _ _ s Hs).
    unfold send_personal_message, send_text. run. rewrite Hreg. simpl.
    by rewrite Hsend. }
  split; [by rewrite Hrun |]. split; [| split].
  - unfold st'. rewrite (process_message_registered _ _ _ _ s Hs).
    destruct (send_personal_message_frame
                answer session_id
                (set_sessions
                   (<[session_id :=
                        append_turn {| role := ai; content := answer |}
                          (append_turn {| role := user; content := data |} s)]>)
                   st)) as (Hsessions & _).
    fold answer. rewrite Hsessions. simpl. rewrite lookup_insert_eq.
    eexists. split; [done |]. simpl. by rewrite <- app_assoc.
  - unfold st'. rewrite (process_message_registered _ _ _ _ s Hs).
    unfold send_personal_message, send_text. run. rewrite Hreg. simpl.
    by rewrite Hsend.
  - simpl. unfold mbind, M_bind. by rewrite Hrun.
Qed.

(** C7: a question for an identifier that has no entry in [sessions] gets
    the fixed text [NO_DOCUMENT] sent on the connection registered for that
    identifier and nothing else: [sessions], the registry and the files are
    as before, no websocket is closed, and the loop goes on to the next
    message. *)
Theorem process_message_without_session
    session_id data reply st websocket rest :
  sessions st !! session_id = None →
  active_connections st !! session_id = Some websocket →
  send_text_result websocket NO_DOCUMENT = None →
  let st' := (process_message send_text_result session_id data reply st).2 in
  (process_message send_text_result session_id data reply st).1 = Ok tt ∧
  sessions st' = sessions st ∧
  active_connections st' = active_connections st ∧
  files st' = files st ∧
  calls st' = calls st ++ [CallSendText websocket NO_DOCUMENT] ∧
  receive_loop send_text_result session_id (Frame data reply :: rest) st =
    receive_loop send_text_result session_id rest st'.
Proof.
  intros Hs Hreg Hsend. simpl.
  unfold process_message, send_personal_message, send_text. run.
  rewrite Hs, Hreg. simpl. rewrite Hsend. simpl. done.
Qed.

(** C10: for a session that is in [sessions], one question changes, in the
    whole state, only the [chat_history] of that session's entry: the five
    other fields of the entry, the entries of all other identifiers, the
    registry and the files are as before, whatever the chain and the
    transport do. *)
Theorem process_message_changes_history_only session_id data reply st s :
  sessions st !! session_id = Some s →
  let st' := (process_message send_text_result session_id data reply st).2 in
  (∃ s', sessions st' !! session_id = Some s' ∧
         doc_path s' = doc_path s ∧
         vectorstore s' = vectorstore s ∧
         conversation_chain s' = conversation_chain s ∧
         document_summary s' = document_summary s ∧
         summary_generated s' = summary_generated s) ∧
  (∀ other, other ≠ session_id →
     sessions st' !! other = sessions st !! other) ∧
  active_connections st' = active_connections st ∧
  files st' = files st.
Proof.
  intros Hs. simpl. rewrite (process_message_registered _ _ _ _ s Hs).
  match goal with
  | |- context [send_personal_message _ ?m ?k ?st0] =>
      destruct (send_personal_message_frame m k st0)
        as (Hsessions & Hregistry & Hfiles & _)
  end.
  rewrite Hsessions, Hregistry, Hfiles. simpl. split; [| split].
  - rewrite lookup_insert_eq. eexists. split; [done |]. done.
  - intros other Hne. by rewrite lookup_insert_ne.
  - done.
Qed.

(** When the loop ends with an exception other than [WebSocketDisconnect],
    the second [except] clause only sends the diagnostic text: the
    registry keeps whatever it held. *)
Lemma serve_unexpected_failure session_id inbound st text st1 :
  receive_loop send_text_result session_id inbound st =
    (Raise (Exception text), st1) →
  let st' := (serve send_text_result session_id inbound st).2 in
  active_connections st' = active_connections st1 ∧
  calls st' = calls st1 ++
    match active_connections st1 !! session_id with
    | Some websocket =>
        [CallSendText websocket ("An unexpected error occurred: " +:+ text)]
    | None => []
    end.
Proof.
  intros Hloop. simpl. unfold serve. rewrite Hloop.
  destruct (send_personal_message_frame
              ("An unexpected error occurred: " +:+ text) session_id st1)
    as (_ & Hregistry & _ & Hcalls).
  unfold mbind, M_bind, mret, M_ret.
  destruct (send_personal_message _ _ _ st1) as [[[]|e] st2]; simpl in *;
    done.
Qed.

(** The sibling clause, for a peer that disconnects, does deregister. *)
Lemma serve_disconnect_deregisters session_id inbound st text st1 :
  receive_loop send_text_result session_id inbound st =
    (Raise (WebSocketDisconnect text), st1) →
  serve send_text_result session_id inbound st =
    (Ok Returned,
     match active_connections st1 !! session_id with
     | Some _ => set_active_connections (delete session_id) st1
     | None => st1
     end).
Proof.
  intros Hloop. unfold serve. rewrite Hloop. unfold disconnect. run.
  by destruct (active_connections st1 !! session_id).
Qed.

(** The loop itself never touches the registry. *)
Lemma process_message_keeps_registry session_id data reply st :
  active_connections
    (process_message send_text_result session_id data reply st).2 =
  active_connections st.
Proof.
  destruct (sessions st !! session_id) as [s|] eqn:Hs.
  - rewrite (process_message_registered _ _ _ _ s Hs).
    match goal with
    | |- context [send_personal_message _ ?m ?k ?st0] =>
        destruct (send_personal_message_frame m k st0) as (_ & Hregistry & _)
    end.
    by rewrite Hregistry.
  - unfold process_message. run. rewrite Hs.
    by destruct (send_personal_message_frame NO_DOCUMENT session_id st)
      as (_ & Hregistry & _).
Qed.

Lemma receive_loop_keeps_registry session_id inbound st :
  active_connections (receive_loop send_text_result session_id inbound st).2 =
  active_connections st.
Proof.
  revert st. induction inbound as [|[data reply|e] rest IH]; intros st;
    simpl; [done | | done].
  unfold mbind, M_bind.
  pose proof (process_message_keeps_registry session_id data reply st) as Hstep.
  destruct (process_message _ _ _ _ st) as [[[]|e] st1]; simpl in *.
  - by rewrite IH.
  - done.
Qed.

(** A [connect] that returns has registered its websocket. *)
Lemma connect_registers websocket session_id st st0 :
  connect accept_result send_text_result websocket session_id st = (Ok tt, st0) →
  active_connections st0 = <[session_id := websocket]> (active_connections st).
Proof.
  unfold connect, accept. run.
  destruct (accept_result websocket); simpl; [intros [=] |].
  destruct (option_bind _ _ _ _) as [summary|]; simpl;
    [| by intros [= <-]].
  match goal with
  | |- context [send_personal_message _ ?m ?k ?st1] =>
      pose proof (send_personal_message_frame m k st1) as (_ & Hfirst & _);
      destruct (send_personal_message _ m k st1) as [[[]|e] st2];
      simpl in *; [| intros [=]]
  end.
  intros Hsecond.
  pose proof (send_personal_message_frame summary session_id st2)
    as (_ & Hregistry & _).
  rewrite Hsecond in Hregistry. simpl in Hregistry. congruence.
Qed.

(** C3: a handler that has connected and whose loop then ends with an
    exception [Exception(text)] (not a disconnect of the peer) makes one
    more call, sending the diagnostic text on its connection, and returns
    with the registry still mapping the session identifier to that
    connection: the connection has not been deregistered. *)
Theorem websocket_endpoint_unexpected_failure_stays_registered
    websocket session_id inbound st st0 text st1 :
  connect accept_result send_text_result websocket session_id st = (Ok tt, st0) →
  receive_loop send_text_result session_id inbound st0 =
    (Raise (Exception text), st1) →
  send_text_result websocket ("An unexpected error occurred: " +:+ text) = None →
  let outcome :=
    websocket_endpoint accept_result send_text_result websocket session_id
      inbound st in
  outcome.1 = Ok Returned ∧
  calls outcome.2 = calls st1 ++
    [CallSendText websocket ("An unexpected error occurred: " +:+ text)] ∧
  active_connections outcome.2 !! session_id = Some websocket.
Proof.
  intros Hconnect Hloop Hsend. simpl.
  assert (Hreg : active_connections st1 !! session_id = Some websocket).
  { pose proof (receive_loop_keeps_registry session_id inbound st0) as Hkeep.
    rewrite Hloop in Hkeep. simpl in Hkeep.
    rewrite Hkeep, (connect_registers _ _ _ _ Hconnect).
    apply lookup_insert_eq. }
  unfold websocket_endpoint, mbind, M_bind. rewrite Hconnect.
  destruct (serve_unexpected_failure _ _ _ _ _ Hloop) as (Hregistry & Hcalls).
  simpl in *. rewrite Hregistry, Hcalls, Hreg. split; [| done].
  unfold serve. rewrite Hloop.
  unfold send_personal_message, send_text. run. by rewrite Hreg, Hsend.
Qed.

End EndpointProperties.

(** ** The theorems at work on the scenario of session ["abc"] *)

Lemma upload_pdf_summary_failure_keeps_session_witness :
  let outcome :=
    upload_pdf "abc" doc_pdf
      (run_with_summary (Raises (Exception "model down"))) empty_state in
  outcome.1 = HTTPException 500 "Error processing PDF: model down" ∧
  files outcome.2 !! "uploads/abc_0b5e.pdf" = None ∧
  sessions outcome.2 !! "abc" =
    Some {| doc_path := "uploads/abc_0b5e.pdf";
            vectorstore := FAISS 1;
            conversation_chain := Chain 1;
            chat_history := [];
            summary_generated := false;
            document_summary := None |}.
Proof.
  apply (upload_pdf_summary_failure_keeps_session
           "abc" doc_pdf (run_with_summary (Raises (Exception "model down")))
           empty_state (Docs 1) (Chunks 1) (FAISS 1) (Chain 1)
           (Exception "model down"));
    reflexivity.
Defined.

Lemma upload_pdf_rejects_other_extensions_witness :
  endswith (filename notes_txt) ".pdf" = false ∧
  upload_pdf "abc" notes_txt (run_with_summary (Returns "A short text."))
    empty_state =
    (HTTPException 400 "Invalid file type. Only PDF files are allowed.",
     empty_state).
Proof.
  split; [reflexivity |].
  apply upload_pdf_rejects_other_extensions. reflexivity.
Defined.

Lemma upload_pdf_success_registers_witness :
  ∃ s summary,
    summary_ainvoke (run_with_summary (Returns "A short text.")) =
      Returns summary ∧
    sessions uploaded_state !! "abc" = Some s ∧
    chat_history s = [] ∧
    summary_generated s = true ∧
    document_summary s = Some summary.
Proof.
  apply (upload_pdf_success_registers
           "abc" doc_pdf (run_with_summary (Returns "A short text."))
           empty_state 200 "PDF uploaded and processed successfully!" "abc"
           uploaded_state).
  reflexivity.
Defined.

(** C5, as the claim has it, fails: the summary chain may return the empty
    string, and the upload then succeeds with an empty stored summary. *)
Lemma upload_pdf_empty_summary_counterexample :
  ¬ (∀ session_id file run st status message sid st',
       upload_pdf session_id file run st =
         (JSONResponse status message sid, st') →
       sid = session_id ∧
       ∃ s summary,
         sessions st' !! session_id = Some s ∧
         chat_history s = [] ∧
         document_summary s = Some summary ∧
         summary ≠ "").
Proof.
  intros Hclaim.
  destruct (Hclaim "abc" doc_pdf (run_with_summary (Returns "")) empty_state
              200 "PDF uploaded and processed successfully!" "abc"
              (upload_pdf "abc" doc_pdf (run_with_summary (Returns ""))
                 empty_state).2 eq_refl)
    as (_ & s & summary & Hs & _ & Hsummary & Hnonempty).
  vm_compute in Hs. injection Hs as <-. simpl in Hsummary.
  injection Hsummary as <-. by apply Hnonempty.
Qed.

Lemma connect_automatic_messages_witness :
  (connect always_accepts always_sends 7 "abc" uploaded_state).1 = Ok tt ∧
  calls (connect always_accepts always_sends 7 "abc" uploaded_state).2 =
    [CallAccept 7; CallSendText 7 GREETING; CallSendText 7 "A short text."].
Proof.
  apply (connect_automatic_messages always_accepts always_sends 7 "abc"
           uploaded_state); [reflexivity | intros message; reflexivity].
Defined.

Lemma process_message_appends_two_turns_witness :
  let answer := "Error getting AI response: timeout. Please try again." in
  let st' :=
    (process_message always_sends "abc" "What is this about?"
       (Raises (Exception "timeout")) connected_state).2 in
  (process_message always_sends "abc" "What is this about?"
     (Raises (Exception "timeout")) connected_state).1 = Ok tt ∧
  (∃ s', sessions st' !! "abc" = Some s' ∧
         chat_history s' =
           chat_history abc_session ++
             [ {| role := user; content := "What is this about?" |};
               {| role := ai; content := answer |} ]) ∧
  calls st' = calls connected_state ++ [CallSendText 7 answer] ∧
  receive_loop always_sends "abc"
    [Frame "What is this about?" (Raises (Exception "timeout"))]
    connected_state =
  receive_loop always_sends "abc" [] st'.
Proof.
  apply (process_message_appends_two_turns always_sends "abc"
           "What is this about?" (Raises (Exception "timeout"))
           connected_state abc_session 7 []);
    [reflexivity | reflexivity | intros message; reflexivity].
Defined.

Lemma process_message_without_session_witness :
  let st' :=
    (process_message always_sends "abc" "Hello?" (Returns "unused")
       connected_without_upload).2 in
  (process_message always_sends "abc" "Hello?" (Returns "unused")
     connected_without_upload).1 = Ok tt ∧
  sessions st' = sessions connected_without_upload ∧
  active_connections st' = active_connections connected_without_upload ∧
  files st' = files connected_without_upload ∧
  calls st' = calls connected_without_upload ++ [CallSendText 7 NO_DOCUMENT] ∧
  receive_loop always_sends "abc" [Frame "Hello?" (Returns "unused")]
    connected_without_upload =
  receive_loop always_sends "abc" [] st'.
Proof.
  apply (process_message_without_session always_sends "abc" "Hello?"
           (Returns "unused") connected_without_upload 7 []);
    reflexivity.
Defined.

Lemma process_message_changes_history_only_witness :
  let st' :=
    (process_message always_sends "abc" "What is this about?"
       (Returns "It is about maps.") connected_state).2 in
  (∃ s', sessions st' !! "abc" = Some s' ∧
         doc_path s' = doc_path abc_session ∧
         vectorstore s' = vectorstore abc_session ∧
         conversation_chain s' = conversation_chain abc_session ∧
         document_summary s' = document_summary abc_session ∧
         summary_generated s' = summary_generated abc_session) ∧
  (∀ other, other ≠ "abc" →
     sessions st' !! other = sessions connected_state !! other) ∧
  active_connections st' = active_connections connected_state ∧
  files st' = files connected_state.
Proof.
  apply (process_message_changes_history_only always_sends "abc"
           "What is this about?" (Returns "It is about maps.")
           connected_state abc_session).
  reflexivity.
Defined.

Lemma websocket_endpoint_unexpected_failure_stays_registered_witness :
  let outcome :=
    websocket_endpoint always_accepts always_sends 7 "abc"
      [Broken (Exception "boom")] uploaded_state in
  outcome.1 = Ok Returned ∧
  calls outcome.2 = calls connected_state ++
    [CallSendText 7 "An unexpected error occurred: boom"] ∧
  active_connections outcome.2 !! "abc" = Some 7.
Proof.
  apply (websocket_endpoint_unexpected_failure_stays_registered
           always_accepts always_sends 7 "abc" [Broken (Exception "boom")]
           uploaded_state connected_state "boom" connected_state);
    reflexivity.
Defined.

(** * Further properties *)

(** ** The upload handler, beyond the claims *)

Ltac run_upload :=
  unfold upload_pdf; simpl;
  match goal with
  | |- context [endswith ?name ?ext] => destruct (endswith name ext) eqn:?; simpl
  end;
  [ unfold upload_try, write_upload; run; step_outcomes;
    repeat match goal with
    | |- context [match ?o with Some _ => _ | None => _ end] =>
        destruct o eqn:?; simpl
    end
  | ].

(** X1: when the name ends in [.pdf] and every service returns, the upload
    succeeds: the response is the 200 one carrying the session identifier,
    the uploaded bytes are on disk at the upload's location, and the entry
    under the identifier points at that file and holds the index, the chain
    and the summary the services returned. *)
Theorem upload_pdf_succeeds_when_services_return
    session_id file run st docs texts index chain summary :
  endswith (filename file) ".pdf" = true →
  open_wb run = Returns tt →
  copyfileobj run = Returns tt →
  load run = Returns docs →
  split_documents run = Returns texts →
  from_documents run = Returns index →
  from_llm run = Returns chain →
  summary_ainvoke run = Returns summary →
  let outcome := upload_pdf session_id file run st in
  outcome.1 =
    JSONResponse 200 "PDF uploaded and processed successfully!" session_id ∧
  files outcome.2 !! upload_location session_id run = Some (file_bytes file) ∧
  sessions outcome.2 !! session_id =
    Some {| doc_path := upload_location session_id run;
            vectorstore := index;
            conversation_chain := chain;
            chat_history := [];
            summary_generated := true;
            document_summary := Some summary |}.
Proof.
  intros Hpdf Hopen Hcopy Hload Hsplit Hindex Hchain Hsummary.
  unfold upload_pdf. rewrite Hpdf. simpl.
  unfold upload_try, write_upload. run.
  rewrite Hopen, Hcopy, Hload, Hsplit, Hindex, Hchain, Hsummary. simpl.
  split; [done |]. split; [apply lookup_insert_eq |].
  by rewrite !lookup_alter_eq, lookup_insert_eq.
Qed.

(** X2: whatever the services do, an upload changes no file but the one at
    its own location: every other path holds what it held before. *)
Theorem upload_pdf_touches_only_its_file session_id file run st path :
  path ≠ upload_location session_id run →
  files (upload_pdf session_id file run st).2 !! path = files st !! path.
Proof.
  intros Hpath. run_upload;
    rewrite ?lookup_delete_ne, ?lookup_insert_ne by done; done.
Qed.

(** X3: whatever the services do, an upload for one identifier leaves the
    entries of all other identifiers, the connection registry and the calls
    made on websockets as they were. *)
Theorem upload_pdf_keeps_other_sessions_and_connections
    session_id file run st :
  let st' := (upload_pdf session_id file run st).2 in
  (∀ other, other ≠ session_id →
     sessions st' !! other = sessions st !! other) ∧
  active_connections st' = active_connections st ∧
  calls st' = calls st.
Proof.
  run_upload; (split; [| done]); intros other Hother;
    rewrite ?lookup_alter_ne, ?lookup_insert_ne by done; done.
Qed.

(** X6: the upload is answered with status 400 exactly when the file name is
    not some text followed by [.pdf] (the comparison is case sensitive, and
    the bare name [.pdf] passes). *)
Theorem upload_pdf_status_400_iff_not_pdf session_id file run st :
  (∃ detail, (upload_pdf session_id file run st).1 = HTTPException 400 detail)
  ↔ ¬ ∃ stem, filename file = stem +:+ ".pdf".
Proof.
  rewrite <- endswith_spec. unfold upload_pdf.
  destruct (endswith (filename file) ".pdf") eqn:Hext; simpl.
  - split; [| done]. intros [detail Hdetail]. exfalso. revert Hdetail.
    unfold upload_try, write_upload. run. step_outcomes; discriminate.
  - split; [done |]. intros _. eauto.
Qed.

(** X7: an upload has three possible answers and no other: the 400 refusal,
    the 200 success carrying the identifier, or a 500 whose detail is
    ["Error processing PDF: "] followed by [str(e)] for an exception [e]
    that one of the steps raised. *)
Theorem upload_pdf_response_shape session_id file run st :
  let response := (upload_pdf session_id file run st).1 in
  response =
    HTTPException 400 "Invalid file type. Only PDF files are allowed." ∨
  response =
    JSONResponse 200 "PDF uploaded and processed successfully!" session_id ∨
  ∃ e,
    response = HTTPException 500 ("Error processing PDF: " +:+ str e) ∧
    (open_wb run = Raises e ∨ copyfileobj run = Raises e ∨
     load run = Raises e ∨ split_documents run = Raises e ∨
     from_documents run = Raises e ∨ from_llm run = Raises e ∨
     summary_ainvoke run = Raises e).
Proof.
  run_upload; try (left; done); try (right; left; done);
    right; right; eexists; (split; [done |]); tauto.
Qed.

(** ** The connection manager and the endpoint, beyond the claims *)

Section EndpointCoverage.

Variable accept_result : WebSocket → option exn.
Variable send_text_result : WebSocket → string → option exn.

(** What a run of [send_each] does to the state. *)
Lemma send_each_frame connections message st :
  let st' := (send_each send_text_result connections message st).2 in
  sessions st' = sessions st ∧
  active_connections st' = active_connections st ∧
  files st' = files st.
Proof.
  revert st. induction connections as [|c rest IH]; intros st; simpl;
    [done |].
  unfold send_text. run.
  destruct (send_text_result c message); simpl; [done |].
  destruct (IH (log_call (CallSendText c message) st)) as (-> & -> & ->).
  done.
Qed.

Lemma send_each_all_sent connections message st :
  (∀ c, c ∈ connections → send_text_result c message = None) →
  send_each send_text_result connections message st =
    (Ok tt,
     {| sessions := sessions st;
        active_connections := active_connections st;
        files := files st;
        calls := calls st ++ ((λ c, CallSendText c message) <$> connections) |}).
Proof.
  revert st. induction connections as [|c rest IH]; intros st Hsend; simpl.
  - rewrite app_nil_r. by destruct st.
  - unfold send_text. run. rewrite (Hsend c) by left. simpl.
    rewrite IH by (intros c' Hc'; apply Hsend; by right).
    simpl. by rewrite <- app_assoc.
Qed.

Lemma send_each_raises connections message st c e :
  c ∈ connections →
  send_text_result c message = Some e →
  ∃ e', (send_each send_text_result connections message st).1 = Raise e'.
Proof.
  revert st. induction connections as [|c' rest IH]; intros st Hin Hfail.
  - by apply elem_of_nil in Hin.
  - simpl. unfold send_text. run.
    destruct (send_text_result c' message) as [e'|] eqn:Hc'; simpl; [eauto |].
    apply elem_of_cons in Hin as [->|Hin]; [congruence |].
    by apply IH.
Qed.

(** X8: when [send_text] returns on every registered websocket, [broadcast]
    returns and has made exactly one [send_text] call, with the message, per
    entry of the registry (no call at all on an empty registry), and has
    changed nothing else. *)
Theorem broadcast_reaches_every_connection message st :
  (∀ session_id websocket,
     active_connections st !! session_id = Some websocket →
     send_text_result websocket message = None) →
  let outcome := broadcast send_text_result message st in
  outcome.1 = Ok tt ∧
  sessions outcome.2 = sessions st ∧
  active_connections outcome.2 = active_connections st ∧
  files outcome.2 = files st ∧
  ∃ made,
    calls outcome.2 = calls st ++ made ∧
    made ≡ₚ ((λ entry : string * WebSocket, CallSendText entry.2 message)
               <$> map_to_list (active_connections st)).
Proof.
  intros Hsend. simpl. unfold broadcast. run.
  rewrite send_each_all_sent; simpl.
  - do 4 (split; [done |]). eexists. split; [done |].
    by rewrite <- list_fmap_compose.
  - intros c Hc. apply list_elem_of_fmap in Hc as ([k w] & -> & Hkw).
    apply elem_of_map_to_list in Hkw. by apply (Hsend k).
Qed.

(** X9: when [send_text] raises on some registered websocket, [broadcast]
    raises; sessions, registry and files are as before. *)
Theorem broadcast_raises_when_a_send_raises message st session_id websocket e :
  active_connections st !! session_id = Some websocket →
  send_text_result websocket message = Some e →
  let outcome := broadcast send_text_result message st in
  (∃ e', outcome.1 = Raise e') ∧
  sessions outcome.2 = sessions st ∧
  active_connections outcome.2 = active_connections st ∧
  files outcome.2 = files st.
Proof.
  intros Hreg Hfail. simpl. unfold broadcast. run. split.
  - apply (send_each_raises _ _ _ websocket e); [| done].
    apply list_elem_of_fmap. exists (session_id, websocket).
    split; [done |]. by apply elem_of_map_to_list.
  - apply send_each_frame.
Qed.

(** X10: when [accept] raises, [websocket_endpoint] raises the same
    exception at once: the one call made is that [accept], nothing is
    registered, and the messages of the client are never read. *)
Theorem websocket_endpoint_accept_failure websocket session_id inbound st e :
  accept_result websocket = Some e →
  websocket_endpoint accept_result send_text_result websocket session_id
    inbound st =
  (Raise e, log_call (CallAccept websocket) st).
Proof.
  intros Haccept. unfold websocket_endpoint, connect, accept. run.
  by rewrite Haccept.
Qed.

(** X11: when a summary is stored and the greeting cannot be sent, the
    exception leaves [websocket_endpoint] (the [connect] call is outside
    its [try]): the summary is not sent, no message is read, and the
    websocket stays registered under the session identifier. *)
Theorem websocket_endpoint_greeting_failure
    websocket session_id inbound st summary e :
  sessions st !! session_id ≫= document_summary = Some summary →
  accept_result websocket = None →
  send_text_result websocket GREETING = Some e →
  let outcome :=
    websocket_endpoint accept_result send_text_result websocket session_id
      inbound st in
  outcome.1 = Raise e ∧
  active_connections outcome.2 =
    <[session_id := websocket]> (active_connections st) ∧
  sessions outcome.2 = sessions st ∧
  calls outcome.2 =
    calls st ++ [CallAccept websocket; CallSendText websocket GREETING].
Proof.
  intros Hsummary Haccept Hgreeting. simpl.
  unfold websocket_endpoint, connect, accept, send_personal_message, send_text.
  run. rewrite Haccept. simpl.
  rewrite Hsummary. simpl. rewrite lookup_insert_eq. simpl.
  rewrite Hgreeting. simpl. by rewrite <- app_assoc.
Qed.

(** X12: when the peer disconnects ([WebSocketDisconnect] ends the loop,
    raised by [receive_text] or by a [send_text]), the handler returns
    having removed the session identifier from the registry and having done
    nothing else: no call on a websocket, no change to the sessions. *)
Theorem websocket_endpoint_peer_disconnect
    websocket session_id inbound st st0 text st1 :
  connect accept_result send_text_result websocket session_id st = (Ok tt, st0) →
  receive_loop send_text_result session_id inbound st0 =
    (Raise (WebSocketDisconnect text), st1) →
  let outcome :=
    websocket_endpoint accept_result send_text_result websocket session_id
      inbound st in
  outcome.1 = Ok Returned ∧
  active_connections outcome.2 = delete session_id (active_connections st) ∧
  sessions outcome.2 = sessions st1 ∧
  files outcome.2 = files st1 ∧
  calls outcome.2 = calls st1.
Proof.
  intros Hconnect Hloop. simpl.
  pose proof (receive_loop_keeps_registry send_text_result session_id inbound st0)
    as Hkeep.
  rewrite Hloop in Hkeep. simpl in Hkeep.
  rewrite (connect_registers _ _ _ _ _ _ Hconnect) in Hkeep.
  unfold websocket_endpoint, mbind, M_bind. rewrite Hconnect.
  rewrite (serve_disconnect_deregisters _ _ _ _ _ _ Hloop).
  rewrite Hkeep, lookup_insert_eq. simpl. rewrite Hkeep.
  by rewrite delete_insert_eq.
Qed.

(** One question for a registered session on a working connection. *)
Lemma process_message_delivered session_id data reply st s websocket :
  sessions st !! session_id = Some s →
  active_connections st !! session_id = Some websocket →
  send_text_result websocket (ai_answer reply) = None →
  process_message send_text_result session_id data reply st =
    (Ok tt,
     log_call (CallSendText websocket (ai_answer reply))
       (set_sessions
          (<[session_id :=
               append_turn {| role := ai; content := ai_answer reply |}
                 (append_turn {| role := user; content := data |} s)]>)
          st)).
Proof.
  intros Hs Hreg Hsend.
  rewrite (process_message_registered _ _ _ _ _ s Hs). fold (ai_answer reply).
  unfold send_personal_message, send_text. run. by rewrite Hreg, Hsend.
Qed.

(** X13: on a working connection, the loop run on a sequence of questions
    for a registered session stays in [receive_text] at the end, has
    appended to the session's [chat_history] the user turn and the ai turn
    of each question, in the order of the questions, and has sent exactly
    one text per question, its answer, in the same order. *)
Theorem receive_loop_appends_all_exchanges
    session_id questions st s websocket :
  sessions st !! session_id = Some s →
  active_connections st !! session_id = Some websocket →
  (∀ message, send_text_result websocket message = None) →
  let ending :=
    receive_loop send_text_result session_id (frames questions) st in
  ending.1 = Ok Suspended ∧
  (∃ s', sessions ending.2 !! session_id = Some s' ∧
         chat_history s' = chat_history s ++ mjoin (exchange <$> questions)) ∧
  calls ending.2 =
    calls st ++
      ((λ question : string * outcome string,
          CallSendText websocket (ai_answer question.2)) <$> questions).
Proof.
  intros Hs Hreg Hsend. simpl. revert st s Hs Hreg.
  induction questions as [|[data reply] rest IH]; intros st s Hs Hreg; simpl.
  - split; [done |]. split; [| by rewrite app_nil_r].
    exists s. by rewrite app_nil_r.
  - unfold mbind, M_bind.
    rewrite (process_message_delivered _ _ _ _ s websocket Hs Hreg (Hsend _)).
    match goal with
    | |- context [receive_loop _ _ _ ?st1] =>
        destruct (IH st1
                    (append_turn {| role := ai; content := ai_answer reply |}
                       (append_turn {| role := user; content := data |} s)))
          as (Hstatus & (s' & Hs' & Hhistory) & Hcalls);
          [simpl; apply lookup_insert_eq | done |]
    end.
    split; [done |]. split.
    + exists s'. split; [done |]. rewrite Hhistory. simpl.
      by rewrite <- !app_assoc.
    + rewrite Hcalls. simpl. by rewrite <- app_assoc.
Qed.

(** What one turn of the loop may change. *)
Lemma process_message_step session_id data reply st :
  let st' := (process_message send_text_result session_id data reply st).2 in
  files st' = files st ∧
  dom (sessions st') = dom (sessions st) ∧
  (∀ other, other ≠ session_id →
     sessions st' !! other = sessions st !! other) ∧
  (∀ s, sessions st !! session_id = Some s →
     ∃ s', sessions st' !! session_id = Some s' ∧
           doc_path s' = doc_path s ∧
           vectorstore s' = vectorstore s ∧
           conversation_chain s' = conversation_chain s ∧
           document_summary s' = document_summary s ∧
           summary_generated s' = summary_generated s ∧
           chat_history s `prefix_of` chat_history s').
Proof.
  simpl. destruct (sessions st !! session_id) as [s|] eqn:Hs.
  - rewrite (process_message_registered _ _ _ _ _ s Hs).
    match goal with
    | |- context [send_personal_message _ ?m ?k ?st0] =>
        destruct (send_personal_message_frame send_text_result m k st0)
          as (Hsessions & _ & Hfiles & _)
    end.
    rewrite Hsessions, Hfiles. simpl. split; [done |]. split; [| split].
    + apply dom_insert_lookup_L. by rewrite Hs.
    + intros other Hother. by rewrite lookup_insert_ne.
    + intros s0 [= <-]. rewrite lookup_insert_eq. eexists.
      split; [done |]. simpl. do 5 (split; [done |]).
      rewrite <- app_assoc. by apply prefix_app_r.
  - unfold process_message. run. rewrite Hs.
    destruct (send_personal_message_frame send_text_result NO_DOCUMENT
                session_id st) as (Hsessions & _ & Hfiles & _).
    rewrite Hsessions, Hfiles, Hs. done.
Qed.

(** X14: whatever the client, the chain and the transport do, the whole loop
    leaves the registry and the files as they were, neither adds nor removes
    a session identifier, leaves the entries of the other identifiers
    unchanged, and in the entry of its own identifier changes only
    [chat_history], which it only extends. *)
Theorem receive_loop_extends_history_only session_id inbound st :
  let st' := (receive_loop send_text_result session_id inbound st).2 in
  active_connections st' = active_connections st ∧
  files st' = files st ∧
  dom (sessions st') = dom (sessions st) ∧
  (∀ other, other ≠ session_id →
     sessions st' !! other = sessions st !! other) ∧
  (∀ s, sessions st !! session_id = Some s →
     ∃ s', sessions st' !! session_id = Some s' ∧
           doc_path s' = doc_path s ∧
           vectorstore s' = vectorstore s ∧
           conversation_chain s' = conversation_chain s ∧
           document_summary s' = document_summary s ∧
           summary_generated s' = summary_generated s ∧
           chat_history s `prefix_of` chat_history s').
Proof.
  simpl. split; [apply receive_loop_keeps_registry |].
  revert st. induction inbound as [|[data reply|e] rest IH]; intros st; simpl.
  - do 3 (split; [done |]). intros s Hs. exists s. done.
  - unfold mbind, M_bind.
    pose proof (process_message_step session_id data reply st)
      as (Hfiles & Hdom & Hothers & Hown).
    destruct (process_message _ _ _ _ st) as [[[]|e] st1]; simpl in *.
    + destruct (IH st1) as (Hfiles' & Hdom' & Hothers' & Hown').
      split; [congruence |]. split; [congruence |]. split.
      * intros other Hother. by rewrite Hothers', Hothers.
      * intros s Hs.
        destruct (Hown s Hs) as (s1 & Hs1 & ? & ? & ? & ? & ? & Hprefix1).
        destruct (Hown' s1 Hs1) as (s2 & Hs2 & ? & ? & ? & ? & ? & Hprefix2).
        exists s2. split; [done |].
        do 5 (split; [congruence |]). by etrans.
    + done.
  - do 3 (split; [done |]). intros s Hs. exists s. done.
Qed.

(** X15: when the answer cannot be sent, the question and the answer are in
    the session's [chat_history] all the same: both turns were appended
    before the [send_text] that raised, and its exception ends the turn. *)
Theorem process_message_send_failure_keeps_turns
    session_id data reply st s websocket e :
  sessions st !! session_id = Some s →
  active_connections st !! session_id = Some websocket →
  send_text_result websocket (ai_answer reply) = Some e →
  let ending := process_message send_text_result session_id data reply st in
  ending.1 = Raise e ∧
  (∃ s', sessions ending.2 !! session_id = Some s' ∧
         chat_history s' = chat_history s ++ exchange (data, reply)) ∧
  calls ending.2 = calls st ++ [CallSendText websocket (ai_answer reply)].
Proof.
  intros Hs Hreg Hsend. simpl.
  rewrite (process_message_registered _ _ _ _ _ s Hs). fold (ai_answer reply).
  unfold send_personal_message, send_text. run. rewrite Hreg. simpl.
  rewrite Hsend. simpl. split; [done |]. split; [| done].
  rewrite lookup_insert_eq. eexists. split; [done |]. simpl.
  by rewrite <- app_assoc.
Qed.

(** The state a [connect] leaves on a working transport. *)
Lemma connect_returns websocket session_id st :
  accept_result websocket = None →
  (∀ message, send_text_result websocket message = None) →
  connect accept_result send_text_result websocket session_id st =
    (Ok tt,
     {| sessions := sessions st;
        active_connections := <[session_id := websocket]> (active_connections st);
        files := files st;
        calls :=
          calls st ++ CallAccept websocket ::
            match sessions st !! session_id ≫= document_summary with
            | Some summary =>
                [CallSendText websocket GREETING;
                 CallSendText websocket summary]
            | None => []
            end |}).
Proof.
  intros Haccept Hsend. unfold connect, accept, send_personal_message, send_text.
  run. rewrite Haccept. simpl.
  destruct (option_bind _ _ _ _) as [summary|]; simpl; [| done].
  rewrite !lookup_insert_eq. simpl. rewrite !Hsend. simpl.
  rewrite lookup_insert_eq. simpl. rewrite !Hsend. simpl.
  unfold log_call, set_active_connections. simpl.
  by rewrite <- !app_assoc.
Qed.

(** X16: after a websocket has connected for a session identifier, the
    answer to the next question for that identifier goes to it and to no
    other websocket, whichever websocket was registered before: a second
    connection takes the answers away from the first. *)
Theorem second_connect_takes_over websocket session_id data reply st s :
  sessions st !! session_id = Some s →
  accept_result websocket = None →
  (∀ message, send_text_result websocket message = None) →
  let st1 :=
    (connect accept_result send_text_result websocket session_id st).2 in
  let st2 := (process_message send_text_result session_id data reply st1).2 in
  calls st2 = calls st1 ++ [CallSendText websocket (ai_answer reply)] ∧
  ∃ made,
    calls st2 = calls st ++ made ∧
    ∀ other message, other ≠ websocket → CallSendText other message ∉ made.
Proof.
  intros Hs Haccept Hsend. simpl.
  rewrite (connect_returns _ _ _ Haccept Hsend). simpl.
  match goal with
  | |- context [process_message _ _ _ _ ?st1] =>
      rewrite (process_message_delivered session_id data reply st1 s
                 websocket Hs (lookup_insert_eq _ _ _) (Hsend _))
  end.
  simpl. split; [done |]. rewrite <- app_assoc. eexists. split; [done |].
  intros other message Hother Hin. apply list_elem_of_In in Hin.
  simpl in Hin.
  destruct (sessions st !! session_id ≫= document_summary); simpl in Hin;
    intuition (try discriminate; congruence).
Qed.

(** X17: when the loop ends with an unexpected exception and the diagnostic
    text cannot be sent either, that second exception leaves the handler
    (nothing catches it), and the websocket is still registered. *)
Theorem websocket_endpoint_diagnostic_failure
    websocket session_id inbound st st0 text st1 e :
  connect accept_result send_text_result websocket session_id st = (Ok tt, st0) →
  receive_loop send_text_result session_id inbound st0 =
    (Raise (Exception text), st1) →
  send_text_result websocket ("An unexpected error occurred: " +:+ text)
    = Some e →
  let ending :=
    websocket_endpoint accept_result send_text_result websocket session_id
      inbound st in
  ending.1 = Raise e ∧
  active_connections ending.2 !! session_id = Some websocket.
Proof.
  intros Hconnect Hloop Hsend. simpl.
  pose proof (receive_loop_keeps_registry send_text_result session_id inbound st0)
    as Hkeep.
  rewrite Hloop in Hkeep. simpl in Hkeep.
  rewrite (connect_registers _ _ _ _ _ _ Hconnect) in Hkeep.
  unfold websocket_endpoint, mbind, M_bind. rewrite Hconnect.
  unfold serve. rewrite Hloop.
  unfold send_personal_message, send_text. run.
  rewrite Hkeep, lookup_insert_eq. simpl. rewrite Hsend. simpl.
  split; [done |]. rewrite Hkeep. apply lookup_insert_eq.
Qed.

(** X18: a [connect] followed by a [disconnect] for the same identifier
    leaves the registry without that identifier and otherwise as it was
    before the two, whatever the transport does: for an identifier that was
    not registered the round trip gives the registry back, and for one that
    was, its earlier connection is gone too. *)
Theorem connect_then_disconnect websocket session_id st :
  let st1 :=
    (connect accept_result send_text_result websocket session_id st).2 in
  let st2 := (disconnect session_id st1).2 in
  active_connections st2 = delete session_id (active_connections st) ∧
  (active_connections st !! session_id = None →
   active_connections st2 = active_connections st).
Proof.
  simpl.
  assert (Hdisconnect : ∀ st0,
    active_connections (disconnect session_id st0).2 =
    delete session_id (active_connections st0)).
  { intros st0. unfold disconnect. run.
    destruct (active_connections st0 !! session_id) eqn:Hreg; simpl;
      [done | by rewrite delete_id]. }
  rewrite Hdisconnect.
  assert (Hconnect :
    delete session_id
      (active_connections
         (connect accept_result send_text_result websocket session_id st).2) =
    delete session_id (active_connections st)).
  { unfold connect, accept, send_personal_message, send_text. run.
    destruct (accept_result websocket); simpl; [done |].
    destruct (option_bind _ _ _ _); simpl; rewrite ?lookup_insert_eq; simpl;
      repeat (match goal with
              | |- context [send_text_result ?w ?m] =>
                  destruct (send_text_result w m); simpl
              end; rewrite ?lookup_insert_eq; simpl);
      by rewrite delete_insert_eq. }
  rewrite Hconnect. split; [done |]. intros Habsent. by apply delete_id.
Qed.

End EndpointCoverage.

(** ** The further properties at work on the scenario of session ["abc"] *)

Lemma upload_pdf_succeeds_when_services_return_witness :
  let outcome :=
    upload_pdf "abc" doc_pdf (run_with_summary (Returns "A short text."))
      empty_state in
  outcome.1 =
    JSONResponse 200 "PDF uploaded and processed successfully!" "abc" ∧
  files outcome.2 !! "uploads/abc_0b5e.pdf" = Some "%PDF-1.4" ∧
  sessions outcome.2 !! "abc" = Some abc_session.
Proof.
  apply (upload_pdf_succeeds_when_services_return
           "abc" doc_pdf (run_with_summary (Returns "A short text."))
           empty_state (Docs 1) (Chunks 1) (FAISS 1) (Chain 1)
           "A short text.");
    reflexivity.
Defined.

Lemma upload_pdf_touches_only_its_file_witness :
  files (upload_pdf "xyz" doc_pdf
           (run_with_summary (Raises (Exception "model down")))
           uploaded_state).2 !! "uploads/abc_0b5e.pdf" =
  files uploaded_state !! "uploads/abc_0b5e.pdf".
Proof.
  apply upload_pdf_touches_only_its_file.
  intros Hsame. vm_compute in Hsame. discriminate Hsame.
Defined.

Lemma upload_pdf_failure_removes_file_witness :
  files (upload_pdf "abc" doc_pdf run_load_fails empty_state).2
    !! upload_location "abc" run_load_fails = None.
Proof.
  apply (upload_pdf_failure_removes_file "abc" doc_pdf run_load_fails
           empty_state "Error processing PDF: not a PDF").
  reflexivity.
Defined.

Lemma upload_pdf_early_failure_keeps_sessions_witness :
  sessions (upload_pdf "abc" doc_pdf run_load_fails uploaded_state).2 =
  sessions uploaded_state.
Proof.
  apply (upload_pdf_early_failure_keeps_sessions "abc" doc_pdf run_load_fails
           uploaded_state (Exception "not a PDF")).
  right. right. left. reflexivity.
Defined.

Lemma broadcast_reaches_every_connection_witness :
  let outcome := broadcast always_sends "Maintenance at noon." connected_state in
  outcome.1 = Ok tt ∧
  sessions outcome.2 = sessions connected_state ∧
  active_connections outcome.2 = active_connections connected_state ∧
  files outcome.2 = files connected_state ∧
  ∃ made,
    calls outcome.2 = calls connected_state ++ made ∧
    made ≡ₚ ((λ entry : string * WebSocket,
                CallSendText entry.2 "Maintenance at noon.")
               <$> map_to_list (active_connections connected_state)).
Proof.
  apply (broadcast_reaches_every_connection always_sends
           "Maintenance at noon." connected_state).
  intros session_id websocket Hregistered. reflexivity.
Defined.

Lemma broadcast_raises_when_a_send_raises_witness :
  let outcome := broadcast never_sends "Maintenance at noon." connected_state in
  (∃ e', outcome.1 = Raise e') ∧
  sessions outcome.2 = sessions connected_state ∧
  active_connections outcome.2 = active_connections connected_state ∧
  files outcome.2 = files connected_state.
Proof.
  apply (broadcast_raises_when_a_send_raises never_sends
           "Maintenance at noon." connected_state "abc" 7
           (Exception "connection lost"));
    reflexivity.
Defined.

Lemma websocket_endpoint_accept_failure_witness :
  websocket_endpoint never_accepts always_sends 7 "abc"
    (frames two_questions) uploaded_state =
  (Raise (Exception "handshake failed"), log_call (CallAccept 7) uploaded_state).
Proof.
  apply websocket_endpoint_accept_failure. reflexivity.
Defined.

Lemma websocket_endpoint_greeting_failure_witness :
  let outcome :=
    websocket_endpoint always_accepts (fails_on GREETING) 7 "abc"
      (frames two_questions) uploaded_state in
  outcome.1 = Raise (Exception "broken pipe") ∧
  active_connections outcome.2 =
    <["abc" := 7]> (active_connections uploaded_state) ∧
  sessions outcome.2 = sessions uploaded_state ∧
  calls outcome.2 =
    calls uploaded_state ++ [CallAccept 7; CallSendText 7 GREETING].
Proof.
  apply (websocket_endpoint_greeting_failure always_accepts (fails_on GREETING)
           7 "abc" (frames two_questions) uploaded_state "A short text."
           (Exception "broken pipe"));
    reflexivity.
Defined.

Lemma websocket_endpoint_peer_disconnect_witness :
  let outcome :=
    websocket_endpoint always_accepts always_sends 7 "abc"
      [Broken (WebSocketDisconnect "1000")] uploaded_state in
  outcome.1 = Ok Returned ∧
  active_connections outcome.2 =
    delete "abc" (active_connections uploaded_state) ∧
  sessions outcome.2 = sessions connected_state ∧
  files outcome.2 = files connected_state ∧
  calls outcome.2 = calls connected_state.
Proof.
  apply (websocket_endpoint_peer_disconnect always_accepts always_sends 7
           "abc" [Broken (WebSocketDisconnect "1000")] uploaded_state
           connected_state "1000" connected_state);
    reflexivity.
Defined.

Lemma receive_loop_appends_all_exchanges_witness :
  let ending :=
    receive_loop always_sends "abc" (frames two_questions) connected_state in
  ending.1 = Ok Suspended ∧
  (∃ s', sessions ending.2 !! "abc" = Some s' ∧
         chat_history s' =
           chat_history abc_session ++ mjoin (exchange <$> two_questions)) ∧
  calls ending.2 =
    calls connected_state ++
      ((λ question : string * outcome string,
          CallSendText 7 (ai_answer question.2)) <$> two_questions).
Proof.
  apply (receive_loop_appends_all_exchanges always_sends "abc" two_questions
           connected_state abc_session 7);
    [reflexivity | reflexivity | intros message; reflexivity].
Defined.

Lemma process_message_send_failure_keeps_turns_witness :
  let ending :=
    process_message never_sends "abc" "What is this about?"
      (Returns "It is about maps.") connected_state in
  ending.1 = Raise (Exception "connection lost") ∧
  (∃ s', sessions ending.2 !! "abc" = Some s' ∧
         chat_history s' =
           chat_history abc_session ++
             exchange ("What is this about?", Returns "It is about maps.")) ∧
  calls ending.2 =
    calls connected_state ++ [CallSendText 7 "It is about maps."].
Proof.
  apply (process_message_send_failure_keeps_turns never_sends "abc"
           "What is this about?" (Returns "It is about maps.")
           connected_state abc_session 7 (Exception "connection lost"));
    reflexivity.
Defined.

Lemma second_connect_takes_over_witness :
  let st1 := (connect always_accepts always_sends 8 "abc" connected_state).2 in
  let st2 :=
    (process_message always_sends "abc" "What is this about?"
       (Returns "It is about maps.") st1).2 in
  calls st2 = calls st1 ++ [CallSendText 8 "It is about maps."] ∧
  ∃ made,
    calls st2 = calls connected_state ++ made ∧
    ∀ other message, other ≠ 8 → CallSendText other message ∉ made.
Proof.
  apply (second_connect_takes_over always_accepts always_sends 8 "abc"
           "What is this about?" (Returns "It is about maps.")
           connected_state abc_session);
    [reflexivity | reflexivity | intros message; reflexivity].
Defined.

Lemma websocket_endpoint_diagnostic_failure_witness :
  let ending :=
    websocket_endpoint always_accepts
      (fails_on "An unexpected error occurred: boom") 7 "abc"
      [Broken (Exception "boom")] uploaded_state in
  ending.1 = Raise (Exception "broken pipe") ∧
  active_connections ending.2 !! "abc" = Some 7.
Proof.
  apply (websocket_endpoint_diagnostic_failure always_accepts
           (fails_on "An unexpected error occurred: boom") 7 "abc"
           [Broken (Exception "boom")] uploaded_state connected_state "boom"
           connected_state (Exception "broken pipe"));
    reflexivity.
Defined.
